(** * The graph IR of the X10 tensor library

    A shallow embedding of [Sources/x10/xla_tensor/ir.h] (namespace
    [swift_xla::ir]): output handles ([Output], [Value]), operation kinds
    ([OpKind]), graph nodes ([Node]) and the gated downcast [NodeCast].

    Conventions.
    - [size_t] values are only stored, compared and used as indices in the
      header (no arithmetic), so they are [nat].
    - A raw [const Node*] is [ptr]: [None] is [nullptr], [Some a] the address
      of a node.  A [std::shared_ptr<Node>] ([NodePtr]) is the pointer its
      [get()] returns; reference counts play no role in what is proved here.
    - Nodes live in a [heap], a finite map from addresses to objects; an
      object carries its run-time class next to the fields of [Node].
    - A call either returns or throws: [result]. *)

From Stdlib Require Import NArith String List Bool Lia.
From stdpp Require Import base option list gmap strings.

Set Warnings "-register-all".

(** ** Outcomes of a call *)

(** The header itself can raise [std::out_of_range] (from
    [InlinedVector::at]) and [std::bad_cast] (from a reference
    [dynamic_cast]); [contract_violation] is the fatal failure of a
    construction-time check. *)
Inductive exception : Type :=
| out_of_range
| bad_cast
| contract_violation.

Inductive result (A : Type) : Type :=
| Ret (a : A)
| Throw (e : exception).
Arguments Ret {A} a.
Arguments Throw {A} e.

Definition returned {A} (r : result A) : bool :=
  match r with Ret _ => true | Throw _ => false end.

(** A call that dereferences pointers: [None] stands for undefined
    behaviour (a null or dangling pointer was read through). *)
Definition exec (A : Type) : Type := option (result A).

#[global] Instance exec_ret : MRet exec := fun A a => Some (Ret a).

#[global] Instance exec_bind : MBind exec := fun A B f m =>
  match m with
  | Some (Ret a) => f a
  | Some (Throw e) => Some (Throw e)
  | None => None
  end.

Definition throw {A} (e : exception) : exec A := Some (Throw e).

(** ** Pointers *)

Definition addr := positive.

(** [const Node*] *)
Definition ptr := option addr.
Definition nullptr : ptr := None.

(** [using NodePtr = std::shared_ptr<Node>] *)
Record NodePtr : Type := shared_ptr { get : ptr }.

(** [xla::hash_t], a fixed-width unsigned integer type declared outside
    this header.  Its values are only stored, handed on and compared here,
    never computed with, so they are kept as numbers and the width plays no
    role. *)
Definition hash_t := N.

(** ** [struct MetaData] *)

(** [SourceLocation] comes from [swift_backtrace.h]; its fields are never
    inspected by the header. *)
Record SourceLocation : Type := {
  function_name : string;
  file_name : string;
  line : nat
}.

Record MetaData : Type := {
  scope : string;
  frame_info : list SourceLocation
}.

(** ** [struct Output] *)

Module Output.

Record t : Type := make {
  node : ptr;     (* const Node* node = nullptr; *)
  index : nat     (* size_t index = 0; *)
}.

(** [Output() = default] with the member initialisers. *)
Definition default : t := make nullptr 0.

(** [bool operator==(const Output& rhs) const
      { return node == rhs.node && index == rhs.index; }] *)
Definition operator_eq (lhs rhs : t) : bool :=
  bool_decide (node lhs = node rhs) && bool_decide (index lhs = index rhs).

(** [bool operator!=(const Output& rhs) const { return !operator==(rhs); }] *)
Definition operator_ne (lhs rhs : t) : bool := negb (operator_eq lhs rhs).

End Output.

(** ** [struct Value] *)

Module Value.

Record t : Type := make {
  node : NodePtr;   (* NodePtr node; *)
  index : nat       (* size_t index = 0; *)
}.

(** [Value() = default]: an empty [shared_ptr] and index 0. *)
Definition default : t := make (shared_ptr nullptr) 0.

(** [operator bool() const { return node != nullptr; }] *)
Definition operator_bool (v : t) : bool :=
  negb (bool_decide (get (node v) = nullptr)).

(** [operator Output() const { return Output(node.get(), index); }] *)
Definition operator_Output (v : t) : Output.t :=
  Output.make (get (node v)) (index v).

(** [Node* operator->() const { return node.get(); }] *)
Definition operator_arrow (v : t) : ptr := get (node v).

(** [Value] declares no [operator==].  [Output::operator==] is a member, so
    it is a candidate only when the left operand is an [Output]: written
    [Output(a) == b], the right operand is converted by [operator Output]. *)
Definition eq_as_Output (a b : t) : bool :=
  Output.operator_eq (operator_Output a) (operator_Output b).

(** Written [a == b] between two [Value]s, the only viable candidates are
    the built-in comparisons reached through the non-explicit
    [operator bool]: the expression compares the two conversions. *)
Definition eq_through_bool (a b : t) : bool :=
  Bool.eqb (operator_bool a) (operator_bool b).

End Value.

(** ** [struct OpKind] *)

Module OpKind.

(** [c10::Symbol]: an interned name, compared by its unique number
    ([c10::unique_t]). *)
Definition Symbol := N.

Record t : Type := make { op : Symbol }.

(** [bool operator==(const OpKind& rhs) const { return op == rhs.op; }] *)
Definition operator_eq (lhs rhs : t) : bool := (op lhs =? op rhs)%N.

(** [bool operator!=(const OpKind& rhs) const { return !operator==(rhs); }] *)
Definition operator_ne (lhs rhs : t) : bool := negb (operator_eq lhs rhs).

(** [bool operator<(const OpKind& rhs) const] *)
Definition operator_lt (lhs rhs : t) : bool := (op lhs <? op rhs)%N.

End OpKind.

(** ** [xla::Shape] *)

(** The shape type of XLA, declared outside this repository: an array shape
    (element type and dimensions) or a tuple of shapes. *)
Inductive Shape : Type :=
| ArrayShape (element_type : string) (dimensions : list N)
| TupleShape (tuple_shapes : list Shape).

Definition IsTuple (s : Shape) : bool :=
  match s with TupleShape _ => true | ArrayShape _ _ => false end.

(** ** [absl::InlinedVector] *)

(** [at(i)]: the element at [i], or [std::out_of_range] when
    [i >= size()]. *)
Definition InlinedVector_at {A} (v : list A) (i : nat) : result A :=
  match v !! i with
  | Some x => Ret x
  | None => Throw out_of_range
  end.

(** ** [class Node] *)

Module Node.

Record t : Type := make {
  op_ : OpKind.t;
  num_outputs_ : nat;
  shape_ : Shape;
  operands_ : list NodePtr;
  operands_as_outputs_ : list Output.t;
  node_hash_ : hash_t;
  hash_ : hash_t;
  metadata_ : MetaData
}.

Definition op (n : t) : OpKind.t := op_ n.
Definition num_outputs (n : t) : nat := num_outputs_ n.
(** [const xla::Shape& shape() const { return shape_; }] *)
Definition shape (n : t) : Shape := shape_ n.
(** [operands()] returns [operands_as_outputs_], [operand_nodes()] returns
    [operands_]. *)
Definition operands (n : t) : list Output.t := operands_as_outputs_ n.
Definition operand_nodes (n : t) : list NodePtr := operands_ n.
(** [const Output& operand(size_t i) const
      { return operands_as_outputs_.at(i); }] *)
Definition operand (n : t) (i : nat) : result Output.t :=
  InlinedVector_at (operands_as_outputs_ n) i.
Definition node_hash (n : t) : hash_t := node_hash_ n.
Definition hash (n : t) : hash_t := hash_ n.
Definition metadata (n : t) : MetaData := metadata_ n.

End Node.

(** ** Objects and the heap *)

(** Classes are named; [Node] is the root of the hierarchy and the classes
    that specialise it are declared elsewhere. *)
Definition class_name := string.

(** A node object: its run-time type, written as the chain of classes from
    the most derived one up to [Node], and the fields of its [Node] base.
    The chain is one of single inheritance, so a cast along it leaves the
    address as it is. *)
Record Object : Type := {
  classes : list class_name;
  base : Node.t
}.

(** The object is a [T] (its class is [T] or derives from [T]). *)
Definition is_a (o : Object) (T : class_name) : bool :=
  bool_decide (T ∈ classes o).

Abbreviation heap := (gmap addr Object).

(** Reading through a pointer; [None] when the pointer is null or dangling
    (the behaviour of the program is then undefined). *)
Definition deref (h : heap) (p : ptr) : option Object :=
  a ← p; h !! a.

(** [MakeNode<T>(args...)] is [std::make_shared<T>(args...)]: the freshly
    constructed object is placed at an address not in use. *)
Definition MakeNode (o : Object) (h : heap) : NodePtr * heap :=
  let a := fresh (dom h) in (shared_ptr (Some a), <[a := o]> h).

(** ** [NodeCast] *)

(** Whether [NDEBUG] is defined when the header is compiled. *)
Inductive build_mode : Type :=
| Checked      (* NDEBUG not defined: dynamic_cast *)
| Unchecked.   (* NDEBUG defined: static_cast *)

(** [&dynamic_cast<const T&>( *node )]: the address of the object when it is
    a [T], [std::bad_cast] otherwise. *)
Definition dynamic_cast_ref (T : class_name) (p : ptr) (o : Object)
  : result ptr :=
  if is_a o T then Ret p else Throw bad_cast.

(** [static_cast<const T*>(node)], a cast from the base [Node] down to
    [T]: the same address when the object is a [T]; when it is not, the
    behaviour is undefined. *)
Definition static_cast_ptr (T : class_name) (p : ptr) (o : Object)
  : exec ptr :=
  if is_a o T then Some (Ret p) else None.

(** [template <typename T> T* NodeCast(const Node* node, OpKind op)].
    The result is [None] when [node] cannot be dereferenced, and in the
    unchecked build when the node is of the expected kind and not a [T]. *)
Definition NodeCast (mode : build_mode) (T : class_name) (h : heap)
    (node : ptr) (op : OpKind.t) : exec ptr :=
  match deref h node with
  | None => None
  | Some o =>
      if OpKind.operator_ne op (Node.op (base o)) then Some (Ret nullptr)
      else match mode with
           | Unchecked => static_cast_ptr T node o
           | Checked => Some (dynamic_cast_ref T node o)
           end
  end.

(** * Members defined out of line

    The header declares the constructors of [Node], [Node::shape(size_t)],
    [Node::AddOperand], [Node::GetOpShape], [Node::GetOpHash] and
    [ScopePusher]; their bodies are in the implementation file, not in the
    header.  They are written here after the specification. *)

(** Modelled from the spec: a multi-output node, "a single graph vertex
    that produces more than one independently addressable result". *)
Definition is_multi_output (n : Node.t) : bool :=
  (1 <? Node.num_outputs n)%nat.

(** Modelled from the spec: the "i-th component of the tuple shape()". *)
Definition tuple_component (s : Shape) (i : nat) : result Shape :=
  match s with
  | TupleShape l => InlinedVector_at l i
  | ArrayShape _ _ => Throw out_of_range
  end.

(** Modelled from the spec: the body of [Node::shape(size_t)].  "fails with
    an out-of-range condition if the node is not multi-output and
    output_index ≠ 0, or if output_index ≥ output_count"; otherwise the
    shape at that index: the node's shape for a single-output node, the
    component of the tuple shape for a multi-output node. *)
Definition Node_shape_at (n : Node.t) (output_index : nat) : result Shape :=
  if (negb (is_multi_output n) && negb (output_index =? 0)%nat)
     || (Node.num_outputs n <=? output_index)%nat
  then Throw out_of_range
  else if is_multi_output n then tuple_component (Node.shape n) output_index
  else Ret (Node.shape n).

(** Modelled from the spec: the check of the eager constructor.  "Shape is
    taken as given; validated to be consistent with output_count (a tuple
    shape with matching arity for multi-output nodes)." *)
Definition shape_consistent (shape : Shape) (num_outputs : nat) : bool :=
  if (1 <? num_outputs)%nat then
    match shape with
    | TupleShape l => (length l =? num_outputs)%nat
    | ArrayShape _ _ => false
    end
  else true.

(** Modelled from the spec: [Node::AddOperand(NodePtr node, size_t index)].
    The node "stores its operands as owned references (for lifetime) and
    mirrors them as non-owning OutputRefs": one entry is appended to each
    list. *)
Definition AddOperand (n : Node.t) (node : NodePtr) (index : nat) : Node.t :=
  Node.make (Node.op_ n) (Node.num_outputs_ n) (Node.shape_ n)
    (Node.operands_ n ++ [node])
    (Node.operands_as_outputs_ n ++ [Output.make (get node) index])
    (Node.node_hash_ n) (Node.hash_ n) (Node.metadata_ n).

(** The representation invariant of the two operand lists. *)
Definition mirrored (n : Node.t) : Prop :=
  Output.node <$> Node.operands_as_outputs_ n = get <$> Node.operands_ n.

(** ** [struct ScopePusher] *)

Module ScopePusher.

(** Modelled from the spec: the scope stack behind [ScopePusher], an
    "ordered sequence of active scope names". *)
Definition stack := list string.

(** Modelled from the spec: the constructor of [ScopePusher], "push(name)
    appends a name to the active scope stack". *)
Definition push (name : string) (s : stack) : stack := s ++ [name].

(** Modelled from the spec: the destructor of [ScopePusher], "the paired
    pop removes it". *)
Definition pop (s : stack) : stack := removelast s.

(** Modelled from the spec: [ScopePusher::ResetScopes()], "reset() clears
    the stack unconditionally". *)
Definition ResetScopes (s : stack) : stack := [].

Inductive action : Type :=
| Enter (name : string)   (* a ScopePusher is constructed *)
| Leave                   (* a ScopePusher is destroyed *)
| Clear.                  (* ResetScopes() *)

Definition step (s : stack) (a : action) : stack :=
  match a with
  | Enter name => push name s
  | Leave => pop s
  | Clear => ResetScopes s
  end.

Definition run (acts : list action) (s : stack) : stack := foldl step s acts.

End ScopePusher.

(** The default [hash_seed] of the constructors. *)
Definition default_hash_seed : hash_t := 0x5a2d296e9%N.

(** What a caller can ask of a node once it is built, each through a
    [const] accessor of the header. *)
Inductive request : Type :=
| ask_shape
| ask_node_hash
| ask_hash
| ask_num_outputs.

Inductive answer : Type :=
| a_shape (s : Shape)
| a_hash (x : hash_t)
| a_count (k : nat).

(** The accessors read the stored fields.  The node stores no shape
    function, so a request cannot invoke one: the count of invocations is
    handed back as it came. *)
Definition serve (n : Node.t) (calls : nat) (r : request) : answer * nat :=
  match r with
  | ask_shape => (a_shape (Node.shape n), calls)
  | ask_node_hash => (a_hash (Node.node_hash n), calls)
  | ask_hash => (a_hash (Node.hash n), calls)
  | ask_num_outputs => (a_count (Node.num_outputs n), calls)
  end.

Fixpoint serve_all (n : Node.t) (calls : nat) (rs : list request)
  : list answer * nat :=
  match rs with
  | [] => ([], calls)
  | r :: rs' =>
      let '(a, calls1) := serve n calls r in
      let '(al, calls2) := serve_all n calls1 rs' in
      (a :: al, calls2)
  end.

Section Construction.

(** Modelled from the spec: the hash combiner.  "own_hash = combine(seed,
    operation_identity, shape)" and "cumulative_hash = combine(own_hash,
    cumulative_hash(operand_0), …, cumulative_hash(operand_{n-1})) in
    operand order"; the specification fixes no combiner, so it is a
    parameter, together with the hashes of an operation kind
    ([OpKind::hash()], declared in the header) and of a shape. *)
Variable combine : list hash_t -> hash_t.
Variable OpKind_hash : OpKind.t -> hash_t.
Variable Shape_hash : Shape -> hash_t.

(** The separator of the names in a scope path. *)
Variable scope_separator : string.

(** Modelled from the spec: [Node::GetOpHash(op, shape, hash_seed)], "own_hash
    = combine(seed, operation_identity, shape)". *)
Definition GetOpHash (op : OpKind.t) (shape : Shape) (hash_seed : hash_t)
  : hash_t :=
  combine [hash_seed; OpKind_hash op; Shape_hash shape].

(** Modelled from the spec: the cumulative hash, "combine(own_hash,
    cumulative_hash(operand_0), …, cumulative_hash(operand_{n-1}))". *)
Definition cumulative_hash (own_hash : hash_t) (operand_hashes : list hash_t)
  : hash_t :=
  combine (own_hash :: operand_hashes).

(** Modelled from the spec: "cumulative_hash(operand_i)", the cumulative
    hash of the node that produces an operand, read through the operand's
    pointer. *)
Definition producer_hash (h : heap) (operand : Value.t) : option hash_t :=
  o ← deref h (get (Value.node operand)); Some (Node.hash (base o)).

(** Modelled from the spec: the scope recorded in a new node, "the
    concatenated active scope path". *)
Definition GetCurrentScope (s : ScopePusher.stack) : string :=
  String.concat scope_separator s.

(** Modelled from the spec: the eager-shape constructor
    [Node(op, operands, shape, num_outputs, hash_seed)].  The shape is
    validated against [num_outputs]; the node computes "its hash from its
    own operation+shape and the hashes of its operands' roots, then stores
    its operands"; the active scope path and the source frames go to the
    metadata. *)
Definition Node_ctor (h : heap) (scopes : ScopePusher.stack)
    (frames : list SourceLocation)
    (op : OpKind.t) (operands : list Value.t) (shape : Shape)
    (num_outputs : nat) (hash_seed : hash_t) : exec Node.t :=
  match mapM (producer_hash h) operands with
  | None => None
  | Some hs =>
      if shape_consistent shape num_outputs then
        let own := GetOpHash op shape hash_seed in
        let n0 :=
          Node.make op num_outputs shape [] [] own (cumulative_hash own hs)
            {| scope := GetCurrentScope scopes; frame_info := frames |} in
        Some (Ret (foldl (fun n v => AddOperand n (Value.node v) (Value.index v))
                         n0 operands))
      else throw contract_violation
  end.

(** Modelled from the spec: the leaf constructor
    [Node(op, shape, num_outputs, hash_seed)], "no operands". *)
Definition Node_ctor_leaf (scopes : ScopePusher.stack)
    (frames : list SourceLocation)
    (op : OpKind.t) (shape : Shape) (num_outputs : nat) (hash_seed : hash_t)
  : exec Node.t :=
  Node_ctor ∅ scopes frames op [] shape num_outputs hash_seed.

(** Modelled from the spec: [Node::GetOpShape(shape_fn)].  The header says
    of the deferred constructor that "the shape is generated by a function,
    only if needed (shape cache miss)", the specification that the function
    "is invoked at most once" and "the result is memoized".  [cached] is
    what the shape cache holds for the node; the second component counts
    the invocations of [shape_fn]. *)
Definition GetOpShape (cached : option Shape) (shape_fn : unit -> Shape)
    (calls : nat) : Shape * nat :=
  match cached with
  | Some s => (s, calls)
  | None => (shape_fn tt, S calls)
  end.

(** Modelled from the spec: the deferred-shape constructor
    [Node(op, operands, shape_fn, num_outputs, hash_seed)]: the shape is
    obtained when it is "needed for hashing" and stored in [shape_]. *)
Definition Node_ctor_deferred (h : heap) (scopes : ScopePusher.stack)
    (frames : list SourceLocation)
    (op : OpKind.t) (operands : list Value.t)
    (cached : option Shape) (shape_fn : unit -> Shape)
    (num_outputs : nat) (hash_seed : hash_t) (calls : nat)
  : exec Node.t * nat :=
  let '(shape, calls1) := GetOpShape cached shape_fn calls in
  (Node_ctor h scopes frames op operands shape num_outputs hash_seed, calls1).

End Construction.

(** The fields of a node that are not diagnostics. *)
Definition without_metadata (n : Node.t)
  : OpKind.t * nat * Shape * list NodePtr * list Output.t * hash_t * hash_t :=
  (Node.op_ n, Node.num_outputs_ n, Node.shape_ n, Node.operands_ n,
   Node.operands_as_outputs_ n, Node.node_hash_ n, Node.hash_ n).

Definition exec_map {A B} (f : A -> B) (m : exec A) : exec B :=
  match m with
  | Some (Ret a) => Some (Ret (f a))
  | Some (Throw e) => Some (Throw e)
  | None => None
  end.

(** ** Concrete graphs used as examples *)

Module Examples.

Local Open Scope string_scope.

Definition no_metadata : MetaData := {| scope := ""; frame_info := [] |}.

Definition f32_scalar : Shape := ArrayShape "f32" [].

Definition kConstant : OpKind.t := OpKind.make 7%N.
Definition kAdd : OpKind.t := OpKind.make 11%N.

(** A leaf of kind [kConstant] whose object is of class [Constant]. *)
Definition constant_node : Node.t :=
  Node.make kConstant 1 f32_scalar [] [] 101%N 101%N no_metadata.

Definition constant_object : Object :=
  {| classes := ["Constant"; "Node"]; base := constant_node |}.

Definition heap1 : heap := {[ 1%positive := constant_object ]}.

Definition p1 : ptr := Some 1%positive.
Definition p2 : ptr := Some 2%positive.

(** A node with two operands: output 0 of the node at address 1 and
    output 1 of the node at address 2. *)
Definition add_node : Node.t :=
  Node.make kAdd 1 f32_scalar
    [shared_ptr p1; shared_ptr p2]
    [Output.make p1 0; Output.make p2 1]
    202%N 303%N no_metadata.

Definition v1 : Value.t := Value.make (shared_ptr p1) 0.
Definition v2 : Value.t := Value.make (shared_ptr p2) 1.

(** A second constant, of other content, and a heap holding both. *)
Definition other_constant_object : Object :=
  {| classes := ["Constant"; "Node"];
     base := Node.make kConstant 2 (TupleShape [f32_scalar; f32_scalar])
               [] [] 102%N 102%N no_metadata |}.

Definition heap2 : heap :=
  {[ 1%positive := constant_object; 2%positive := other_constant_object ]}.

(** A two-output node whose first output is itself a tuple. *)
Definition nested_shape : Shape :=
  TupleShape [TupleShape [f32_scalar]; f32_scalar].

Definition nested_node : Node.t :=
  Node.make kAdd 2 nested_shape [] [] 404%N 404%N no_metadata.

(** A combiner for the examples: the code of the list as a number. *)
Definition ideal_combine (l : list hash_t) : hash_t := Npos (encode l).

Definition shape_rank (s : Shape) : hash_t :=
  match s with
  | ArrayShape _ dims => N.of_nat (length dims)
  | TupleShape l => N.of_nat (length l)
  end.

End Examples.

(** * Properties *)

(** ** Helper lemmas *)

Lemma OpKind_operator_eq_true (a b : OpKind.t) :
  OpKind.operator_eq a b = true <-> a = b.
Proof.
  destruct a as [x], b as [y]; unfold OpKind.operator_eq; simpl.
  rewrite N.eqb_eq. split; [intros ->; reflexivity | intros [= ->]; reflexivity].
Qed.

Lemma OpKind_operator_ne_true (a b : OpKind.t) :
  OpKind.operator_ne a b = true <-> a <> b.
Proof.
  unfold OpKind.operator_ne. rewrite negb_true_iff, <- not_true_iff_false.
  by rewrite OpKind_operator_eq_true.
Qed.

Lemma OpKind_operator_ne_false (a b : OpKind.t) :
  OpKind.operator_ne a b = false <-> a = b.
Proof.
  unfold OpKind.operator_ne. rewrite negb_false_iff.
  apply OpKind_operator_eq_true.
Qed.

Lemma InlinedVector_at_inv {A} (v : list A) (i : nat) :
  (i < length v /\ exists x, v !! i = Some x /\ InlinedVector_at v i = Ret x)
  \/ (length v <= i /\ InlinedVector_at v i = Throw out_of_range).
Proof.
  unfold InlinedVector_at. destruct (v !! i) as [x|] eqn:E.
  - left. split; [by eapply lookup_lt_Some | by exists x].
  - right. split; [by apply lookup_ge_None | done].
Qed.

(** ** Output handles *)

(** C10: a [Value] can be empty.  The default [Value] holds a null node and
    index 0; [operator bool] is true exactly when the owned pointer is not
    null; [operator Output] always yields the raw pointer with the same
    index, and for the empty [Value] that pointer is null. *)
Theorem Value_empty_and_conversions :
  get (Value.node Value.default) = nullptr
  /\ Value.index Value.default = 0
  /\ Value.operator_bool Value.default = false
  /\ (forall v : Value.t,
        Value.operator_bool v = true <-> get (Value.node v) <> nullptr)
  /\ (forall v : Value.t,
        Output.node (Value.operator_Output v) = get (Value.node v)
        /\ Output.index (Value.operator_Output v) = Value.index v)
  /\ Value.operator_Output Value.default = Output.default.
Proof.
  repeat split; try reflexivity.
  - unfold Value.operator_bool. intros Hb Hn.
    rewrite bool_decide_eq_true_2 in Hb by exact Hn. discriminate.
  - unfold Value.operator_bool. intros Hn.
    by rewrite bool_decide_eq_false_2.
Qed.

(** C8, as the header has it: [Output::operator==] is structural (same
    node pointer and same index) and [operator!=] is its negation.  [Value]
    declares no comparison: two [Value]s compared through [operator Output]
    are equal exactly when they hold the same node pointer and the same
    index, and compared directly they are equal exactly when both are empty
    or both are not. *)
Theorem handle_equality :
  (forall a b : Output.t,
      Output.operator_eq a b = true
      <-> Output.node a = Output.node b /\ Output.index a = Output.index b)
  /\ (forall a b : Output.t,
        Output.operator_ne a b = true
        <-> ~ (Output.node a = Output.node b
               /\ Output.index a = Output.index b))
  /\ (forall v w : Value.t,
        Value.eq_as_Output v w = true
        <-> get (Value.node v) = get (Value.node w)
            /\ Value.index v = Value.index w)
  /\ (forall v w : Value.t,
        Value.eq_through_bool v w = true
        <-> (get (Value.node v) = nullptr <-> get (Value.node w) = nullptr)).
Proof.
  assert (Heq : forall a b : Output.t,
             Output.operator_eq a b = true
             <-> Output.node a = Output.node b
                 /\ Output.index a = Output.index b).
  { intros a b. unfold Output.operator_eq.
    rewrite andb_true_iff, !bool_decide_eq_true. reflexivity. }
  split; [exact Heq|]. split; [|split].
  - intros a b. unfold Output.operator_ne.
    rewrite negb_true_iff, <- not_true_iff_false, Heq. reflexivity.
  - intros v w. unfold Value.eq_as_Output. rewrite Heq. reflexivity.
  - intros v w. unfold Value.eq_through_bool, Value.operator_bool.
    rewrite eqb_true_iff.
    destruct (decide (get (Value.node v) = nullptr)) as [Hv|Hv],
             (decide (get (Value.node w) = nullptr)) as [Hw|Hw].
    + rewrite !bool_decide_eq_true_2 by assumption. tauto.
    + rewrite bool_decide_eq_true_2, bool_decide_eq_false_2 by assumption.
      simpl. split; [discriminate | tauto].
    + rewrite bool_decide_eq_false_2, bool_decide_eq_true_2 by assumption.
      simpl. split; [discriminate | tauto].
    + rewrite !bool_decide_eq_false_2 by assumption. tauto.
Qed.

(** C8, as stated, fails for [Value]: two non-empty [Value]s holding
    different nodes and different indices compare equal under [==]. *)
Lemma Value_equality_not_structural :
  Value.eq_through_bool Examples.v1 Examples.v2 = true
  /\ get (Value.node Examples.v1) <> get (Value.node Examples.v2)
  /\ Value.index Examples.v1 <> Value.index Examples.v2.
Proof. repeat split; [intros [=] | intros [=]]. Qed.

(** ** Operand access *)

(** C3: [operand(i)] throws [std::out_of_range] for every
    [i >= operands().size()] and returns the [i]-th entry of the non-owning
    operand list for every smaller [i]; an index out of range never yields
    an entry of the list. *)
Theorem operand_bounds (n : Node.t) (i : nat) :
  (length (Node.operands n) <= i -> Node.operand n i = Throw out_of_range)
  /\ (i < length (Node.operands n) ->
      exists o, Node.operands n !! i = Some o /\ Node.operand n i = Ret o)
  /\ (returned (Node.operand n i) = true <-> i < length (Node.operands n)).
Proof.
  unfold Node.operand, Node.operands.
  destruct (InlinedVector_at_inv (Node.operands_as_outputs_ n) i)
    as [[Hlt (o & Ho & Hr)] | [Hge Hr]]; rewrite Hr; simpl.
  - split; [lia|]. split; [by exists o | tauto].
  - split; [done|]. split; [lia|]. split; [discriminate | lia].
Qed.

Lemma operand_bounds_witness :
  Node.operand Examples.add_node 2 = Throw out_of_range
  /\ (exists o, Node.operands Examples.add_node !! 1 = Some o
                /\ Node.operand Examples.add_node 1 = Ret o).
Proof.
  split.
  - apply (proj1 (operand_bounds Examples.add_node 2)). simpl. lia.
  - apply (proj1 (proj2 (operand_bounds Examples.add_node 1))). simpl. lia.
Defined.

Example operand_in_range :
  Node.operand Examples.add_node 1 = Ret (Output.make Examples.p2 1).
Proof. reflexivity. Qed.

Example operand_past_the_end :
  Node.operand Examples.add_node 2 = Throw out_of_range.
Proof. reflexivity. Qed.

(** ** The gated downcast *)

Lemma NodeCast_unfold (mode : build_mode) (T : class_name) (h : heap)
    (node : ptr) (o : Object) (op : OpKind.t) :
  deref h node = Some o ->
  NodeCast mode T h node op =
    if OpKind.operator_ne op (Node.op (base o)) then Some (Ret nullptr)
    else match mode with
         | Unchecked => if is_a o T then Some (Ret node) else None
         | Checked => if is_a o T then Some (Ret node) else Some (Throw bad_cast)
         end.
Proof.
  intros Hd. unfold NodeCast. rewrite Hd.
  destruct (OpKind.operator_ne _ _); [reflexivity|].
  destruct mode; [|reflexivity].
  unfold dynamic_cast_ref. by destruct (is_a o T).
Qed.

Lemma deref_not_null (h : heap) (node : ptr) (o : Object) :
  deref h node = Some o -> node <> nullptr.
Proof. intros Hd ->. discriminate. Qed.

(** C6, as the header has it: in either build [NodeCast<T>(node, op)]
    returns a null pointer exactly when [op] differs from the node's
    operation kind (a mismatch of kinds is an ordinary result, nothing is
    thrown); when the kinds are equal and the object is a [T] it returns the
    node, typed; when the kinds are equal and the object is not a [T], the
    checked build throws [std::bad_cast] and the behaviour of the unchecked
    build is undefined. *)
Theorem NodeCast_gated_by_kind (mode : build_mode) (T : class_name)
    (h : heap) (node : ptr) (o : Object) (op : OpKind.t) :
  deref h node = Some o ->
  (NodeCast mode T h node op = Some (Ret nullptr) <-> op <> Node.op (base o))
  /\ (op = Node.op (base o) -> is_a o T = true ->
      NodeCast mode T h node op = Some (Ret node))
  /\ (op = Node.op (base o) -> is_a o T = false ->
      NodeCast Checked T h node op = Some (Throw bad_cast)
      /\ NodeCast Unchecked T h node op = None).
Proof.
  intros Hd. pose proof (deref_not_null _ _ _ Hd) as Hnn.
  rewrite !(NodeCast_unfold _ T h node o op Hd).
  destruct (OpKind.operator_ne op (Node.op (base o))) eqn:Hne.
  - apply OpKind_operator_ne_true in Hne. repeat split; try done.
  - apply OpKind_operator_ne_false in Hne. split; [|split].
    + split; [|done]. intros Heq. exfalso.
      destruct mode; destruct (is_a o T); congruence.
    + intros _ Ha. rewrite Ha. by destruct mode.
    + intros _ Ha. by rewrite Ha.
Qed.

Lemma NodeCast_gated_by_kind_witness :
  NodeCast Checked "Constant" Examples.heap1 Examples.p1 Examples.kConstant
  = Some (Ret Examples.p1).
Proof.
  apply (proj1 (proj2 (NodeCast_gated_by_kind Checked "Constant"
           Examples.heap1 Examples.p1 Examples.constant_object
           Examples.kConstant eq_refl))); reflexivity.
Defined.

(** C6, as stated, fails in the checked build: the kinds are equal, the
    object is a [Constant] and not a [DeviceData], and the call throws
    instead of returning a view. *)
Lemma NodeCast_checked_throws_on_equal_kinds :
  deref Examples.heap1 Examples.p1 = Some Examples.constant_object
  /\ Examples.kConstant = Node.op (base Examples.constant_object)
  /\ NodeCast Checked "DeviceData" Examples.heap1 Examples.p1
       Examples.kConstant = Some (Throw bad_cast).
Proof. repeat split. Qed.

(** C7, as the header has it: the checked and the unchecked build return
    the same result exactly on the inputs where [op] differs from the
    node's kind (both return null) or the object is a [T] (both return the
    node); both reject a node of another kind, and both accept a [T] of the
    expected kind; on a node of the expected kind that is not a [T], the
    checked build throws [std::bad_cast] and the behaviour of the unchecked
    build is undefined. *)
Theorem NodeCast_build_modes (T : class_name) (h : heap) (node : ptr)
    (o : Object) (op : OpKind.t) :
  deref h node = Some o ->
  (NodeCast Checked T h node op = NodeCast Unchecked T h node op
   <-> op <> Node.op (base o) \/ is_a o T = true)
  /\ (op <> Node.op (base o) ->
      NodeCast Checked T h node op = Some (Ret nullptr)
      /\ NodeCast Unchecked T h node op = Some (Ret nullptr))
  /\ (op = Node.op (base o) -> is_a o T = true ->
      NodeCast Checked T h node op = Some (Ret node)
      /\ NodeCast Unchecked T h node op = Some (Ret node))
  /\ (op = Node.op (base o) -> is_a o T = false ->
      NodeCast Checked T h node op = Some (Throw bad_cast)
      /\ NodeCast Unchecked T h node op = None).
Proof.
  intros Hd.
  rewrite !(NodeCast_unfold _ T h node o op Hd).
  destruct (OpKind.operator_ne op (Node.op (base o))) eqn:Hne.
  - apply OpKind_operator_ne_true in Hne. repeat split; auto; done.
  - apply OpKind_operator_ne_false in Hne.
    destruct (is_a o T) eqn:Ha.
    + repeat split; auto; done.
    + split; [|split; [|split]].
      * split; [discriminate | intros [?|?]; done].
      * intros ?; done.
      * intros _ ?; done.
      * intros _ _; done.
Qed.

Lemma NodeCast_build_modes_witness :
  NodeCast Checked "Node" Examples.heap1 Examples.p1 Examples.kAdd
  = NodeCast Unchecked "Node" Examples.heap1 Examples.p1 Examples.kAdd.
Proof.
  apply (proj1 (NodeCast_build_modes "Node" Examples.heap1 Examples.p1
           Examples.constant_object Examples.kAdd eq_refl)).
  left. intros [=].
Defined.

(** C7, as stated, fails: on a live [Constant] of the expected kind cast to
    [DeviceData] the checked build rejects the cast by throwing, while the
    behaviour of the unchecked build is undefined: nothing makes it reject
    the cast as well. *)
Lemma NodeCast_build_modes_disagree :
  deref Examples.heap1 Examples.p1 = Some Examples.constant_object
  /\ Examples.kConstant = Node.op (base Examples.constant_object)
  /\ NodeCast Checked "DeviceData" Examples.heap1 Examples.p1
       Examples.kConstant = Some (Throw bad_cast)
  /\ NodeCast Unchecked "DeviceData" Examples.heap1 Examples.p1
       Examples.kConstant = None.
Proof. repeat split. Qed.

(** ** Construction *)

Lemma foldl_AddOperand (operands : list Value.t) (n0 : Node.t) :
  foldl (fun n v => AddOperand n (Value.node v) (Value.index v)) n0 operands
  = Node.make (Node.op_ n0) (Node.num_outputs_ n0) (Node.shape_ n0)
      (Node.operands_ n0 ++ (Value.node <$> operands))
      (Node.operands_as_outputs_ n0 ++ (Value.operator_Output <$> operands))
      (Node.node_hash_ n0) (Node.hash_ n0) (Node.metadata_ n0).
Proof.
  revert n0. induction operands as [|v vs IH]; intros n0; simpl.
  - rewrite !app_nil_r. by destruct n0.
  - rewrite IH. simpl. by rewrite <- !app_assoc.
Qed.

Lemma AddOperand_mirrored (m : Node.t) (node : NodePtr) (index : nat) :
  mirrored m -> mirrored (AddOperand m node index).
Proof.
  unfold mirrored, AddOperand; simpl. intros Hm.
  by rewrite !fmap_app, Hm.
Qed.

Section ConstructionFacts.

Variable combine : list hash_t -> hash_t.
Variable OpKind_hash : OpKind.t -> hash_t.
Variable Shape_hash : Shape -> hash_t.
Variable scope_separator : string.

Lemma Node_ctor_returns (h : heap) (scopes : ScopePusher.stack)
    (frames : list SourceLocation) (op : OpKind.t) (operands : list Value.t)
    (shape : Shape) (k : nat) (seed : hash_t) (hs : list hash_t) :
  mapM (producer_hash h) operands = Some hs ->
  shape_consistent shape k = true ->
  Node_ctor combine OpKind_hash Shape_hash scope_separator
    h scopes frames op operands shape k seed
  = Some (Ret (Node.make op k shape
                 (Value.node <$> operands)
                 (Value.operator_Output <$> operands)
                 (GetOpHash combine OpKind_hash Shape_hash op shape seed)
                 (cumulative_hash combine
                    (GetOpHash combine OpKind_hash Shape_hash op shape seed)
                    hs)
                 {| scope := GetCurrentScope scope_separator scopes;
                    frame_info := frames |})).
Proof.
  intros Hhs Hc. unfold Node_ctor. rewrite Hhs, Hc.
  by rewrite foldl_AddOperand.
Qed.

Lemma Node_ctor_inv (h : heap) (scopes : ScopePusher.stack)
    (frames : list SourceLocation) (op : OpKind.t) (operands : list Value.t)
    (shape : Shape) (k : nat) (seed : hash_t) (n : Node.t) :
  Node_ctor combine OpKind_hash Shape_hash scope_separator
    h scopes frames op operands shape k seed = Some (Ret n) ->
  exists hs, mapM (producer_hash h) operands = Some hs
             /\ shape_consistent shape k = true.
Proof.
  unfold Node_ctor.
  destruct (mapM (producer_hash h) operands) as [hs|]; [|discriminate].
  destruct (shape_consistent shape k); [|discriminate].
  intros _. by exists hs.
Qed.

(** C2: a constructed node holds one owned pointer and one non-owning
    [Output] per operand it was given, in the order given: the two lists
    have the same length, the [i]-th [Output] points to the node the [i]-th
    owned pointer owns and carries the output index of the [i]-th operand;
    [AddOperand], the one member that writes the lists, appends to both and
    keeps them in step. *)
Theorem operands_mirrored (h : heap) (scopes : ScopePusher.stack)
    (frames : list SourceLocation) (op : OpKind.t) (operands : list Value.t)
    (shape : Shape) (k : nat) (seed : hash_t) (hs : list hash_t) :
  mapM (producer_hash h) operands = Some hs ->
  shape_consistent shape k = true ->
  (exists n,
      Node_ctor combine OpKind_hash Shape_hash scope_separator
        h scopes frames op operands shape k seed = Some (Ret n)
      /\ length (Node.operands n) = length (Node.operand_nodes n)
      /\ length (Node.operands n) = length operands
      /\ mirrored n
      /\ (forall i o, Node.operands n !! i = Some o ->
            exists p v, Node.operand_nodes n !! i = Some p
                        /\ operands !! i = Some v
                        /\ p = Value.node v
                        /\ Output.node o = get p
                        /\ Output.index o = Value.index v))
  /\ (forall m node index,
        mirrored m ->
        mirrored (AddOperand m node index)
        /\ Node.operand_nodes (AddOperand m node index)
           = Node.operand_nodes m ++ [node]
        /\ Node.operands (AddOperand m node index)
           = Node.operands m ++ [Output.make (get node) index]).
Proof.
  intros Hhs Hc. split.
  - eexists. split; [by apply Node_ctor_returns|].
    unfold Node.operands, Node.operand_nodes, mirrored; simpl.
    split; [by rewrite !length_fmap|].
    split; [by rewrite length_fmap|].
    split.
    { rewrite <- !list_fmap_compose. reflexivity. }
    intros i o Ho. rewrite list_lookup_fmap in Ho.
    destruct (operands !! i) as [v|] eqn:Hv; [|discriminate].
    injection Ho as <-.
    exists (Value.node v), v. rewrite list_lookup_fmap, Hv. by simpl.
  - intros m node index Hm. split; [by apply AddOperand_mirrored|].
    by split.
Qed.

End ConstructionFacts.

Lemma operands_mirrored_witness :
  exists n,
    Node_ctor Examples.ideal_combine OpKind.op Examples.shape_rank "/"
      Examples.heap2 [] [] Examples.kAdd [Examples.v1; Examples.v2]
      Examples.f32_scalar 1 default_hash_seed = Some (Ret n)
    /\ mirrored n
    /\ length (Node.operands n) = 2.
Proof.
  destruct (operands_mirrored Examples.ideal_combine OpKind.op
              Examples.shape_rank "/" Examples.heap2 [] [] Examples.kAdd
              [Examples.v1; Examples.v2] Examples.f32_scalar 1
              default_hash_seed [101; 102]%N eq_refl eq_refl)
    as [(n & Hn & _ & Hlen & Hm & _) _].
  exists n. repeat split; assumption.
Defined.

(** ** Shapes of the outputs *)

Lemma Node_shape_at_valid (n : Node.t) (i : nat) :
  is_multi_output n = true ->
  i < Node.num_outputs n ->
  Node_shape_at n i = tuple_component (Node.shape n) i.
Proof.
  intros Hm Hi. unfold Node_shape_at. rewrite Hm. simpl.
  by rewrite (proj2 (Nat.leb_gt _ _) Hi).
Qed.

(** In the model of [Node::shape(size_t)]: the call fails with an
    out-of-range condition whenever [output_index >= num_outputs], and on a
    node that is not multi-output whenever [output_index] is not 0; on a
    multi-output node whose shape passed the constructor's check, every
    valid [output_index] yields the component of the tuple [shape()] at that
    index, which is no tuple when the components of the tuple are arrays. *)
Theorem shape_at_bounds (n : Node.t) (i : nat) :
  (Node.num_outputs n <= i -> Node_shape_at n i = Throw out_of_range)
  /\ (is_multi_output n = false -> i <> 0 ->
      Node_shape_at n i = Throw out_of_range)
  /\ (is_multi_output n = true ->
      shape_consistent (Node.shape n) (Node.num_outputs n) = true ->
      i < Node.num_outputs n ->
      exists l s,
        Node.shape n = TupleShape l
        /\ l !! i = Some s
        /\ Node_shape_at n i = Ret s
        /\ (Forall (fun c => IsTuple c = false) l -> IsTuple s = false)).
Proof.
  split; [|split].
  - intros Hge. unfold Node_shape_at.
    rewrite (proj2 (Nat.leb_le _ _) Hge). by rewrite orb_true_r.
  - intros Hm Hi. unfold Node_shape_at. rewrite Hm.
    by rewrite (proj2 (Nat.eqb_neq _ _) Hi).
  - intros Hm Hc Hi. rewrite Node_shape_at_valid by assumption.
    unfold shape_consistent in Hc. unfold is_multi_output in Hm.
    rewrite Hm in Hc.
    destruct (Node.shape n) as [?|l] eqn:Hs; [discriminate|].
    apply Nat.eqb_eq in Hc. simpl. unfold InlinedVector_at.
    destruct (l !! i) as [s|] eqn:Hl.
    + exists l, s. repeat split; try done.
      intros Hall. rewrite Forall_forall in Hall. apply Hall.
      by eapply list_elem_of_lookup_2.
    + apply lookup_ge_None in Hl. lia.
Qed.

Example shape_2_of_single_output :
  Node_shape_at Examples.constant_node 2 = Throw out_of_range
  /\ Node_shape_at Examples.constant_node 0 = Ret Examples.f32_scalar.
Proof. split; reflexivity. Qed.

(** Whether the shape of an output is a tuple rests on the shape the node
    was given: a two-output node whose tuple shape has a tuple as first
    component passes the constructor's check, and [shape(0)] is that
    tuple. *)
Lemma shape_at_can_be_a_tuple :
  is_multi_output Examples.nested_node = true
  /\ shape_consistent (Node.shape Examples.nested_node)
       (Node.num_outputs Examples.nested_node) = true
  /\ Node_shape_at Examples.nested_node 0
     = Ret (TupleShape [Examples.f32_scalar])
  /\ IsTuple (TupleShape [Examples.f32_scalar]) = true.
Proof. repeat split. Qed.

(** ** The deferred shape *)

Lemma serve_all_calls (n : Node.t) (calls : nat) (rs : list request) :
  snd (serve_all n calls rs) = calls.
Proof.
  revert calls. induction rs as [|r rs IH]; intros calls; [reflexivity|].
  simpl. destruct (serve n calls r) as [a calls1] eqn:Hs.
  assert (calls1 = calls) as -> by (destruct r; simpl in Hs; congruence).
  specialize (IH calls). destruct (serve_all n calls rs) as [al calls2].
  simpl in *. exact IH.
Qed.

Lemma serve_all_shapes (n : Node.t) (calls : nat) (rs : list request) :
  Forall (fun a => forall s, a = a_shape s -> s = Node.shape n)
         (fst (serve_all n calls rs)).
Proof.
  revert calls. induction rs as [|r rs IH]; intros calls; simpl.
  - constructor.
  - destruct (serve n calls r) as [a calls1] eqn:Hs.
    specialize (IH calls1). destruct (serve_all n calls1 rs) as [al calls2].
    simpl in *. constructor; [|exact IH].
    intros s ->. destruct r; simpl in Hs; congruence.
Qed.

Section DeferredShape.

Variable combine : list hash_t -> hash_t.
Variable OpKind_hash : OpKind.t -> hash_t.
Variable Shape_hash : Shape -> hash_t.
Variable scope_separator : string.

(** C5: the deferred-shape constructor invokes the shape function at most
    once (once on a miss of the shape cache, never on a hit) and stores the
    result in the node; no sequence of later [shape()], [hash()] and
    [node_hash()] calls invokes it again, and every [shape()] among them
    returns the stored shape. *)
Theorem shape_fn_invoked_at_most_once (h : heap)
    (scopes : ScopePusher.stack) (frames : list SourceLocation)
    (op : OpKind.t) (operands : list Value.t) (cached : option Shape)
    (shape_fn : unit -> Shape) (k : nat) (seed : hash_t)
    (rs : list request) :
  let built :=
    Node_ctor_deferred combine OpKind_hash Shape_hash scope_separator
      h scopes frames op operands cached shape_fn k seed 0 in
  snd built <= 1
  /\ snd built = (match cached with Some _ => 0 | None => 1 end)
  /\ forall n, fst built = Some (Ret n) ->
       Node.shape n = (match cached with Some s => s | None => shape_fn tt end)
       /\ snd (serve_all n (snd built) rs) = snd built
       /\ Forall (fun a => forall s, a = a_shape s -> s = Node.shape n)
            (fst (serve_all n (snd built) rs)).
Proof.
  unfold Node_ctor_deferred, GetOpShape.
  destruct cached as [s0|]; simpl.
  - split; [lia|]. split; [reflexivity|].
    intros n Hn. split; [|split].
    + destruct (Node_ctor_inv _ _ _ _ _ _ _ _ _ _ _ _ _ Hn) as (hs & Hhs & Hc).
      rewrite (Node_ctor_returns _ _ _ _ _ _ _ _ _ _ _ _ hs Hhs Hc) in Hn.
      by injection Hn as <-.
    + apply serve_all_calls.
    + apply serve_all_shapes.
  - split; [lia|]. split; [reflexivity|].
    intros n Hn. split; [|split].
    + destruct (Node_ctor_inv _ _ _ _ _ _ _ _ _ _ _ _ _ Hn) as (hs & Hhs & Hc).
      rewrite (Node_ctor_returns _ _ _ _ _ _ _ _ _ _ _ _ hs Hhs Hc) in Hn.
      by injection Hn as <-.
    + apply serve_all_calls.
    + apply serve_all_shapes.
Qed.

End DeferredShape.

Lemma shape_fn_invoked_at_most_once_witness :
  exists n,
    fst (Node_ctor_deferred Examples.ideal_combine OpKind.op
           Examples.shape_rank "/" Examples.heap2 [] [] Examples.kAdd
           [Examples.v1; Examples.v2] None (fun _ => Examples.f32_scalar) 1
           default_hash_seed 0) = Some (Ret n)
    /\ Node.shape n = Examples.f32_scalar
    /\ snd (serve_all n 1 [ask_shape; ask_hash; ask_shape]) = 1.
Proof.
  eexists. split; [reflexivity|].
  destruct (proj2 (proj2 (shape_fn_invoked_at_most_once
              Examples.ideal_combine OpKind.op Examples.shape_rank "/"
              Examples.heap2 [] [] Examples.kAdd [Examples.v1; Examples.v2]
              None (fun _ => Examples.f32_scalar) 1 default_hash_seed
              [ask_shape; ask_hash; ask_shape])) _ eq_refl)
    as (Hshape & Hcalls & _).
  split; [exact Hshape | exact Hcalls].
Defined.

Example deferred_shape_counted :
  let built :=
    Node_ctor_deferred Examples.ideal_combine OpKind.op Examples.shape_rank
      "/" Examples.heap2 [] [] Examples.kAdd [Examples.v1; Examples.v2]
      None (fun _ => Examples.f32_scalar) 1 default_hash_seed 0 in
  snd built = 1
  /\ exec_map (fun n => serve_all n (snd built)
                          [ask_shape; ask_hash; ask_shape])
       (exec_map (fun n => Node.make (Node.op n) (Node.num_outputs n)
                             (Node.shape n) [] [] 0%N 0%N
                             Examples.no_metadata) (fst built))
     = Some (Ret ([a_shape Examples.f32_scalar; a_hash 0%N;
                   a_shape Examples.f32_scalar], 1)).
Proof. split; reflexivity. Qed.

(** ** Scopes *)

Section Scopes.

Variable combine : list hash_t -> hash_t.
Variable OpKind_hash : OpKind.t -> hash_t.
Variable Shape_hash : Shape -> hash_t.
Variable scope_separator : string.

(** C9: two nodes built from the same arguments under two scope stacks,
    each reached by any pushes, pops and resets, agree on every field but
    the metadata: operation, shape, operands, [node_hash()] and [hash()] are
    equal (and the two constructions fail alike when they fail); the scope
    stack only decides the scope path recorded in the metadata. *)
Theorem scopes_only_reach_metadata (h : heap)
    (frames1 frames2 : list SourceLocation)
    (op : OpKind.t) (operands : list Value.t) (shape : Shape) (k : nat)
    (seed : hash_t) (acts1 acts2 : list ScopePusher.action)
    (s1 s2 : ScopePusher.stack) :
  let build acts s frames :=
    Node_ctor combine OpKind_hash Shape_hash scope_separator
      h (ScopePusher.run acts s) frames op operands shape k seed in
  exec_map without_metadata (build acts1 s1 frames1)
  = exec_map without_metadata (build acts2 s2 frames2)
  /\ (forall n1 n2,
        build acts1 s1 frames1 = Some (Ret n1) ->
        build acts2 s2 frames2 = Some (Ret n2) ->
        Node.node_hash n1 = Node.node_hash n2
        /\ Node.hash n1 = Node.hash n2
        /\ Node.shape n1 = Node.shape n2)
  /\ (forall n1,
        build acts1 s1 frames1 = Some (Ret n1) ->
        scope (Node.metadata n1)
        = GetCurrentScope scope_separator (ScopePusher.run acts1 s1)).
Proof.
  intros build.
  assert (Hmeta : forall sc sc' fr fr',
             exec_map without_metadata
               (Node_ctor combine OpKind_hash Shape_hash scope_separator
                  h sc fr op operands shape k seed)
             = exec_map without_metadata
                 (Node_ctor combine OpKind_hash Shape_hash scope_separator
                    h sc' fr' op operands shape k seed)).
  { intros sc sc' fr fr'. unfold Node_ctor.
    destruct (mapM (producer_hash h) operands) as [hs|]; [|reflexivity].
    destruct (shape_consistent shape k); [|reflexivity].
    by rewrite !foldl_AddOperand. }
  split; [apply Hmeta|]. split.
  - intros n1 n2 H1 H2.
    pose proof (Hmeta (ScopePusher.run acts1 s1) (ScopePusher.run acts2 s2)
                  frames1 frames2) as He.
    unfold build in H1, H2. rewrite H1, H2 in He. simpl in He.
    unfold without_metadata in He.
    unfold Node.node_hash, Node.hash, Node.shape. by injection He.
  - intros n1 H1. unfold build in H1.
    destruct (Node_ctor_inv _ _ _ _ _ _ _ _ _ _ _ _ _ H1) as (hs & Hhs & Hc).
    rewrite (Node_ctor_returns _ _ _ _ _ _ _ _ _ _ _ _ hs Hhs Hc) in H1.
    by injection H1 as <-.
Qed.

End Scopes.

Lemma scopes_only_reach_metadata_witness :
  exists n1 n2,
    Node_ctor_leaf Examples.ideal_combine OpKind.op Examples.shape_rank "/"
      (ScopePusher.run [ScopePusher.Enter "forward"] []) []
      Examples.kConstant Examples.f32_scalar 1 default_hash_seed
    = Some (Ret n1)
    /\ Node_ctor_leaf Examples.ideal_combine OpKind.op Examples.shape_rank
         "/" (ScopePusher.run [] []) []
         Examples.kConstant Examples.f32_scalar 1 default_hash_seed
       = Some (Ret n2)
    /\ Node.hash n1 = Node.hash n2
    /\ scope (Node.metadata n1) = "forward"%string
    /\ scope (Node.metadata n2) = ""%string.
Proof.
  eexists _, _. split; [reflexivity|]. split; [reflexivity|].
  destruct (scopes_only_reach_metadata Examples.ideal_combine OpKind.op
              Examples.shape_rank "/" ∅ [] [] Examples.kConstant []
              Examples.f32_scalar 1 default_hash_seed
              [ScopePusher.Enter "forward"] [] [] [])
    as (_ & Hhash & _).
  destruct (Hhash _ _ eq_refl eq_refl) as (_ & Hh & _).
  split; [exact Hh|]. split; reflexivity.
Defined.

Example scope_forward_backward :
  ScopePusher.run
    [ScopePusher.Enter "forward"; ScopePusher.Leave;
     ScopePusher.Enter "backward"] [] = ["backward"%string]
  /\ exec_map (fun n => scope (Node.metadata n))
       (Node_ctor_leaf Examples.ideal_combine OpKind.op Examples.shape_rank
          "/" (ScopePusher.run [ScopePusher.Enter "a"; ScopePusher.Enter "b"]
                 []) [] Examples.kConstant Examples.f32_scalar 1
          default_hash_seed)
     = Some (Ret "a/b"%string).
Proof. split; reflexivity. Qed.

(** * Further properties of the header *)

(** ** Allocation *)

Lemma MakeNode_spec (o : Object) (h : heap) :
  exists a : addr,
    MakeNode o h = (shared_ptr (Some a), <[a := o]> h) /\ h !! a = None.
Proof.
  exists (fresh (dom h)). split; [reflexivity|].
  apply not_elem_of_dom, is_fresh.
Qed.

Lemma deref_insert_live (h : heap) (a : addr) (o obj : Object) (q : ptr) :
  h !! a = None -> deref h q = Some obj -> deref (<[a := o]> h) q = Some obj.
Proof.
  intros Ha. destruct q as [b|]; simpl; [|discriminate].
  intros Hb. rewrite lookup_insert_ne; [exact Hb | congruence].
Qed.

(** What the model of the allocation gives: the new pointer is not null,
    the new object is read through it, and the nodes live before are read
    back unchanged. *)
Lemma MakeNode_allocates (o : Object) (h : heap) :
  get (fst (MakeNode o h)) <> nullptr
  /\ deref h (get (fst (MakeNode o h))) = None
  /\ deref (snd (MakeNode o h)) (get (fst (MakeNode o h))) = Some o
  /\ (forall i, Value.operator_bool (Value.make (fst (MakeNode o h)) i) = true)
  /\ (forall q obj,
        deref h q = Some obj -> deref (snd (MakeNode o h)) q = Some obj).
Proof.
  destruct (MakeNode_spec o h) as (a & -> & Ha). simpl.
  split; [discriminate|]. split; [exact Ha|].
  split; [apply lookup_insert_eq|]. split; [reflexivity|].
  intros q obj. by apply deref_insert_live.
Qed.

(** ** More on the downcast *)

(** X3: [NodeCast] has undefined behaviour in exactly two cases: [node]
    does not point to a live node (a null [node] is read through without a
    test), or the build is the unchecked one and the node is of the expected
    kind without being a [T].  When it returns, the pointer is null or
    [node] itself, never another node; the unchecked build never throws,
    and the checked build throws nothing but [std::bad_cast]. *)
Theorem NodeCast_outcomes (mode : build_mode) (T : class_name) (h : heap)
    (node : ptr) (op : OpKind.t) :
  (NodeCast mode T h node op = None
   <-> deref h node = None
       \/ exists o, deref h node = Some o /\ mode = Unchecked
                    /\ op = Node.op (base o) /\ is_a o T = false)
  /\ NodeCast mode T h nullptr op = None
  /\ (forall p, NodeCast mode T h node op = Some (Ret p) ->
        p = nullptr \/ p = node)
  /\ (forall e, NodeCast mode T h node op = Some (Throw e) ->
        mode = Checked /\ e = bad_cast).
Proof.
  split; [|split; [reflexivity|]].
  - destruct (deref h node) as [o|] eqn:Hd.
    + rewrite (NodeCast_unfold mode T h node o op Hd).
      destruct (OpKind.operator_ne op (Node.op (base o))) eqn:Hne.
      * apply OpKind_operator_ne_true in Hne.
        split; [done|]. intros [? | (o' & [= <-] & _ & ? & _)]; done.
      * apply OpKind_operator_ne_false in Hne.
        destruct mode; destruct (is_a o T) eqn:Ha.
        -- split; [done|]. intros [? | (o' & [= <-] & ? & _)]; done.
        -- split; [done|]. intros [? | (o' & [= <-] & ? & _)]; done.
        -- split; [done|].
           intros [? | (o' & [= <-] & _ & _ & ?)]; [done | congruence].
        -- split; [|done]. intros _. right. by exists o.
    + unfold NodeCast. rewrite Hd. split; [by left | done].
  - destruct (deref h node) as [o|] eqn:Hd.
    + rewrite (NodeCast_unfold mode T h node o op Hd).
      destruct (OpKind.operator_ne _ _).
      * split; [intros p [= <-]; by left | intros e [=]].
      * destruct mode; destruct (is_a o T).
        -- split; [intros p [= <-]; by right | intros e [=]].
        -- split; [intros p [=] | by intros e [= <-]].
        -- split; [intros p [= <-]; by right | intros e [=]].
        -- split; [intros p [=] | intros e [=]].
    + unfold NodeCast. rewrite Hd. split; [intros p [=] | intros e [=]].
Qed.

(** X4: a node made as a [T] casts back: in either build
    [NodeCast<T>(MakeNode<T>(...).get(), op)] returns the new node when [op]
    is the node's own kind, and null for every other kind. *)
Theorem NodeCast_of_made_node (mode : build_mode) (T : class_name)
    (o : Object) (h : heap) :
  is_a o T = true ->
  let made := MakeNode o h in
  NodeCast mode T (snd made) (get (fst made)) (Node.op (base o))
  = Some (Ret (get (fst made)))
  /\ (forall op, op <> Node.op (base o) ->
        NodeCast mode T (snd made) (get (fst made)) op = Some (Ret nullptr)).
Proof.
  intros Ha made. subst made.
  destruct (MakeNode_allocates o h) as (_ & _ & Hd & _).
  split.
  - rewrite (NodeCast_unfold mode T _ _ o _ Hd).
    rewrite (proj2 (OpKind_operator_ne_false _ _) eq_refl).
    rewrite Ha. by destruct mode.
  - intros op Hop. rewrite (NodeCast_unfold mode T _ _ o _ Hd).
    by rewrite (proj2 (OpKind_operator_ne_true _ _) Hop).
Qed.

Lemma NodeCast_of_made_node_witness :
  NodeCast Checked "Constant"
    (snd (MakeNode Examples.constant_object Examples.heap1))
    (get (fst (MakeNode Examples.constant_object Examples.heap1)))
    Examples.kConstant
  = Some (Ret Examples.p2)
  /\ NodeCast Unchecked "Constant"
       (snd (MakeNode Examples.constant_object Examples.heap1))
       (get (fst (MakeNode Examples.constant_object Examples.heap1)))
       Examples.kAdd
     = Some (Ret nullptr).
Proof.
  split.
  - apply (proj1 (NodeCast_of_made_node Checked "Constant"
             Examples.constant_object Examples.heap1 eq_refl)).
  - apply (proj2 (NodeCast_of_made_node Unchecked "Constant"
             Examples.constant_object Examples.heap1 eq_refl)).
    intros [=].
Defined.

(** X5: making a new node changes no answer of [NodeCast] about a node that
    was already live. *)
Theorem NodeCast_after_MakeNode (mode : build_mode) (T : class_name)
    (h : heap) (node : ptr) (obj o : Object) (op : OpKind.t) :
  deref h node = Some obj ->
  NodeCast mode T (snd (MakeNode o h)) node op = NodeCast mode T h node op.
Proof.
  intros Hd.
  destruct (MakeNode_allocates o h) as (_ & _ & _ & _ & Hlive).
  rewrite (NodeCast_unfold mode T _ node obj op (Hlive _ _ Hd)).
  by rewrite (NodeCast_unfold mode T h node obj op Hd).
Qed.

Lemma NodeCast_after_MakeNode_witness :
  NodeCast Checked "DeviceData"
    (snd (MakeNode Examples.other_constant_object Examples.heap1))
    Examples.p1 Examples.kConstant
  = NodeCast Checked "DeviceData" Examples.heap1 Examples.p1
      Examples.kConstant.
Proof.
  apply (NodeCast_after_MakeNode Checked "DeviceData" Examples.heap1
           Examples.p1 Examples.constant_object
           Examples.other_constant_object Examples.kConstant eq_refl).
Defined.

(** ** Operation kinds *)

(** X6: [OpKind::operator<] is a strict total order that goes with
    [operator==]: no kind is below itself, the order is transitive, of two
    kinds exactly one of [a < b], [a == b], [b < a] holds, and [operator!=]
    is true exactly when [operator==] is false. *)
Theorem OpKind_strict_total_order :
  (forall a, OpKind.operator_lt a a = false)
  /\ (forall a b c,
        OpKind.operator_lt a b = true -> OpKind.operator_lt b c = true ->
        OpKind.operator_lt a c = true)
  /\ (forall a b,
        (OpKind.operator_lt a b = true /\ OpKind.operator_eq a b = false
         /\ OpKind.operator_lt b a = false)
        \/ (OpKind.operator_lt a b = false /\ OpKind.operator_eq a b = true
            /\ OpKind.operator_lt b a = false)
        \/ (OpKind.operator_lt a b = false /\ OpKind.operator_eq a b = false
            /\ OpKind.operator_lt b a = true))
  /\ (forall a b, OpKind.operator_ne a b = negb (OpKind.operator_eq a b))
  /\ (forall a b, OpKind.operator_eq a b = true <-> a = b).
Proof.
  unfold OpKind.operator_lt, OpKind.operator_eq, OpKind.operator_ne.
  split; [|split; [|split; [|split]]].
  - intros a. apply N.ltb_irrefl.
  - intros a b c. rewrite !N.ltb_lt. apply N.lt_trans.
  - intros [x] [y]; simpl.
    destruct (N.lt_trichotomy x y) as [Hlt | [-> | Hgt]].
    + left. rewrite (proj2 (N.ltb_lt _ _) Hlt).
      split; [done|]. split; [apply N.eqb_neq | apply N.ltb_ge]; lia.
    + right; left. rewrite N.ltb_irrefl, N.eqb_refl. done.
    + right; right. rewrite (proj2 (N.ltb_lt _ _) Hgt).
      split; [apply N.ltb_ge; lia|]. split; [apply N.eqb_neq; lia | done].
  - reflexivity.
  - intros [x] [y]; simpl. rewrite N.eqb_eq.
    split; [by intros -> | by intros [= ->]].
Qed.

(** ** Output handles as keys *)

(** X7: [Output::operator==] is an equivalence relation, it holds exactly
    between a handle and itself, and [operator!=] holds exactly between two
    different handles: what [OutputSet] and [OutputMap] need of their
    keys. *)
Theorem Output_operator_eq_equivalence :
  (forall a, Output.operator_eq a a = true)
  /\ (forall a b, Output.operator_eq a b = Output.operator_eq b a)
  /\ (forall a b c,
        Output.operator_eq a b = true -> Output.operator_eq b c = true ->
        Output.operator_eq a c = true)
  /\ (forall a b, Output.operator_eq a b = true <-> a = b)
  /\ (forall a b, Output.operator_ne a b = true <-> a <> b).
Proof.
  assert (Hiff : forall a b, Output.operator_eq a b = true <-> a = b).
  { intros [n i] [m j]. unfold Output.operator_eq; simpl.
    rewrite andb_true_iff, !bool_decide_eq_true.
    split; [by intros [-> ->] | by intros [= -> ->]]. }
  split; [|split; [|split; [|split]]].
  - intros a. by apply Hiff.
  - intros a b. apply eq_true_iff_eq. rewrite !Hiff. split; congruence.
  - intros a b c. rewrite !Hiff. congruence.
  - exact Hiff.
  - intros a b. unfold Output.operator_ne.
    rewrite negb_true_iff, <- not_true_iff_false, Hiff. reflexivity.
Qed.

(** ** Walking the operands *)

Lemma InlinedVector_at_all {A} (v : list A) :
  InlinedVector_at v <$> seq 0 (length v) = Ret <$> v.
Proof.
  apply list_eq. intros i. rewrite !list_lookup_fmap.
  destruct (decide (i < length v)) as [Hlt|Hge].
  - rewrite lookup_seq_lt by exact Hlt. simpl.
    destruct (lookup_lt_is_Some_2 v i Hlt) as [x Hx].
    unfold InlinedVector_at. by rewrite Hx.
  - rewrite lookup_seq_ge by lia.
    by rewrite (proj2 (lookup_ge_None v i)) by lia.
Qed.

(** X8: reading [operand(i)] for [i] from 0 up to [operands().size()]
    throws nowhere and yields the elements of [operands()] in order; in
    particular a node without operands answers every [operand(i)] with
    [std::out_of_range]. *)
Theorem operand_walk (n : Node.t) :
  Node.operand n <$> seq 0 (length (Node.operands n))
  = Ret <$> Node.operands n
  /\ (Node.operands n = [] ->
      forall i, Node.operand n i = Throw out_of_range).
Proof.
  split; [apply InlinedVector_at_all|].
  unfold Node.operand, Node.operands. intros -> i. reflexivity.
Qed.
